(** * Pairwise squared Euclidean distance matrices

    A shallow embedding of the distance-matrix routines of the notebooks

    - [euclidean_broadcast] and [euclidean_trick] (NumPy notebook), and
    - [euclidean_cp], [euclidean_np] and [euclidean] (CuPy notebook).

    Numbers are the elements of an arbitrary real ordered integral domain
    [R] (MathComp's [realDomainType]; the integers, the rationals and the
    reals are instances): a statement over [R] is about exact arithmetic.
    The module [F64] has [euclidean_trick] once more on binary64
    floating-point numbers, where rounding and overflow show.

    An array carries its shape next to its data, as a NumPy [ndarray]
    does, so that an array without rows still has a column count.  The
    NumPy primitives the routines call are modelled as total functions
    that return [Err ValueError] where NumPy raises on incompatible
    shapes. *)

From HB Require Import structures.
From mathcomp Require Import ssreflect ssrfun ssrbool eqtype ssrnat seq bigop.
From mathcomp Require Import order ssralg ssrnum ssrint.
From Stdlib Require Import Floats.

Set Implicit Arguments.
Unset Strict Implicit.
Unset Printing Implicit Defensive.
Set Warnings "-deprecated".

Import GRing.Theory Num.Theory Order.Theory.
Local Open Scope ring_scope.

(** ** Exceptions and results *)

(** The exceptions a call can end with: [ValueError] is what NumPy raises
    when shapes cannot be combined (the spec's ShapeMismatch) and
    [AssertionError] is raised by the [assert] of [euclidean]. *)
Inductive error : Type := ValueError | AssertionError.

Inductive result (A : Type) : Type :=
  | Ok of A
  | Err of error.

Arguments Err {A} e.

Definition bind (A B : Type) (m : result A) (f : A -> result B) : result B :=
  match m with
  | Ok a => f a
  | Err e => Err e
  end.

Notation "m >>= f" := (bind m f) (at level 50, left associativity).

(** ** Arrays *)

Section Arrays.

Variable R : realDomainType.

(** Arrays of one, two and three axes: the shape and the nested rows. *)
Record array1 : Type := Array1 { len : nat; data1 : seq R }.

Record array2 : Type :=
  Array2 { rows : nat; cols : nat; data2 : seq (seq R) }.

Record array3 : Type :=
  Array3 { dim0 : nat; dim1 : nat; dim2 : nat; data3 : seq (seq (seq R)) }.

(** The data of a well-formed batch has the sizes its shape announces. *)
Definition wf2 (a : array2) : bool :=
  (size (data2 a) == rows a) && all (fun r => size r == cols a) (data2 a).

(** Indexing: [v[i]], [a[i, j]], [t[i, j, k]] and the row [a[i]]. *)
Definition get1 (v : array1) (i : nat) : R := nth 0 (data1 v) i.

Definition row (a : array2) (i : nat) : seq R := nth [::] (data2 a) i.

Definition get2 (a : array2) (i j : nat) : R := nth 0 (row a i) j.

Definition get3 (t : array3) (i j k : nat) : R :=
  nth 0 (nth [::] (nth [::] (data3 t) i) j) k.

(** A fresh array of a given shape, filled entry by entry. *)
Definition build1 (n : nat) (f : nat -> R) : array1 := Array1 n (mkseq f n).

Definition build2 (n m : nat) (f : nat -> nat -> R) : array2 :=
  Array2 n m (mkseq (fun i => mkseq (f i) m) n).

Definition build3 (n m p : nat) (f : nat -> nat -> nat -> R) : array3 :=
  Array3 n m p (mkseq (fun i => mkseq (fun j => mkseq (f i j) p) m) n).

(** Sum of the elements of a list, from the left end to the right. *)
Definition sumr (s : seq R) : R := foldr +%R 0 s.

(** ** NumPy primitives *)

(** Broadcasting of one axis: equal lengths stay, a length of one is
    stretched to the other length, anything else is an error. *)
Definition bdim (a b : nat) : result nat :=
  if a == b then Ok a
  else if a == 1%N then Ok b
  else if b == 1%N then Ok a
  else Err ValueError.

(** The index read on an axis of length [d]: a stretched axis is always
    read at position 0. *)
Definition bidx (d i : nat) : nat := if d == 1%N then 0%N else i.

(** A binary element-wise operation on two-axis arrays, with broadcasting. *)
Definition broadcast2 (op : R -> R -> R) (a b : array2) : result array2 :=
  bdim (rows a) (rows b) >>= fun n =>
  bdim (cols a) (cols b) >>= fun m =>
  Ok (build2 n m (fun i j =>
        op (get2 a (bidx (rows a) i) (bidx (cols a) j))
           (get2 b (bidx (rows b) i) (bidx (cols b) j)))).

(** The same on three-axis arrays. *)
Definition broadcast3 (op : R -> R -> R) (s t : array3) : result array3 :=
  bdim (dim0 s) (dim0 t) >>= fun n =>
  bdim (dim1 s) (dim1 t) >>= fun m =>
  bdim (dim2 s) (dim2 t) >>= fun p =>
  Ok (build3 n m p (fun i j k =>
        op (get3 s (bidx (dim0 s) i) (bidx (dim1 s) j) (bidx (dim2 s) k))
           (get3 t (bidx (dim0 t) i) (bidx (dim1 t) j) (bidx (dim2 t) k)))).

(** [a + b], [a - b] and [a * b] on arrays. *)
Definition np_add : array2 -> array2 -> result array2 := broadcast2 +%R.
Definition np_sub : array2 -> array2 -> result array2 :=
  broadcast2 (fun u v => u - v).
Definition np_mul : array2 -> array2 -> result array2 := broadcast2 *%R.
Definition np_sub3 : array3 -> array3 -> result array3 :=
  broadcast3 (fun u v => u - v).
Definition np_mul3 : array3 -> array3 -> result array3 := broadcast3 *%R.

(** [c * a] for a scalar [c]. *)
Definition np_scale (c : R) (a : array2) : array2 :=
  build2 (rows a) (cols a) (fun i j => c * get2 a i j).

(** [np.abs(a)]. *)
Definition np_abs (a : array2) : array2 :=
  build2 (rows a) (cols a) (fun i j => `|get2 a i j|).

(** [a.T]. *)
Definition transpose (a : array2) : array2 :=
  build2 (cols a) (rows a) (fun i j => get2 a j i).

(** [np.dot(a, b)] on two-axis arrays: the matrix product, an error when
    the inner lengths differ. *)
Definition np_dot (a b : array2) : result array2 :=
  if cols a == rows b then
    Ok (build2 (rows a) (cols b) (fun i j =>
          sumr (mkseq (fun k => get2 a i k * get2 b k j) (cols a))))
  else Err ValueError.

(** [np.einsum('ij,ij->i', a, b)]: row by row, the sum of the products of
    the entries. *)
Definition einsum_ij_ij_i (a b : array2) : result array1 :=
  bdim (rows a) (rows b) >>= fun n =>
  bdim (cols a) (cols b) >>= fun m =>
  Ok (build1 n (fun i =>
        sumr (mkseq (fun j =>
                get2 a (bidx (rows a) i) (bidx (cols a) j) *
                get2 b (bidx (rows b) i) (bidx (cols b) j)) m))).

(** [a.sum(axis=1)] on a two-axis array, [t.sum(axis=2)] on a three-axis
    array. *)
Definition sum_axis1 (a : array2) : array1 :=
  build1 (rows a) (fun i => sumr (mkseq (fun j => get2 a i j) (cols a))).

Definition sum_axis2 (t : array3) : array2 :=
  build2 (dim0 t) (dim1 t) (fun i j =>
    sumr (mkseq (fun k => get3 t i j k) (dim2 t))).

(** [v[:, np.newaxis]] and [v[np.newaxis, :]] on a one-axis array. *)
Definition col_newaxis (v : array1) : array2 :=
  build2 (len v) 1 (fun i _ => get1 v i).

Definition row_newaxis (v : array1) : array2 :=
  build2 1 (len v) (fun _ j => get1 v j).

(** [a[:, np.newaxis, :]] and [a[np.newaxis, :, :]] on a two-axis array. *)
Definition mid_newaxis (a : array2) : array3 :=
  build3 (rows a) 1 (cols a) (fun i _ k => get2 a i k).

Definition front_newaxis (a : array2) : array3 :=
  build3 1 (rows a) (cols a) (fun _ j k => get2 a j k).

(** ** The routines of the NumPy notebook *)

Definition euclidean_broadcast (x y : array2) : result array2 :=
  np_sub3 (mid_newaxis x) (front_newaxis y) >>= fun diff =>
  np_mul3 diff diff >>= fun sq =>
  Ok (sum_axis2 sq).

Definition euclidean_trick (x y : array2) : result array2 :=
  einsum_ij_ij_i x x >>= fun ex =>
  let x2 := col_newaxis ex in
  einsum_ij_ij_i y y >>= fun ey =>
  let y2 := row_newaxis ey in
  np_dot x (transpose y) >>= fun xy =>
  np_add x2 y2 >>= fun s =>
  np_sub s (np_scale 2 xy) >>= fun d =>
  Ok (np_abs d).

(** ** The routines of the CuPy notebook *)

(** [euclidean_np] is written with NumPy's operations. *)
Definition euclidean_np (x y : array2) : result array2 :=
  np_mul x x >>= fun xx =>
  let x2 := col_newaxis (sum_axis1 xx) in
  np_mul y y >>= fun yy =>
  let y2 := row_newaxis (sum_axis1 yy) in
  np_dot x (transpose y) >>= fun xy =>
  np_add x2 y2 >>= fun s =>
  np_sub s (np_scale 2 xy) >>= fun d =>
  Ok (np_abs d).

(** ** Quantities of the specification *)

(** On rows, as lists: the dot product, the squared norm and the squared
    Euclidean distance (the sum over the features of the squared
    differences). *)
Definition dotp (u v : seq R) : R := sumr [seq a.1 * a.2 | a <- zip u v].

Definition sq_norm (u : seq R) : R := dotp u u.

Definition sq_dist (u v : seq R) : R :=
  sumr [seq (a.1 - a.2) ^+ 2 | a <- zip u v].

(** The same by index, as the primitives above compute them:
    [idx_dot x y i j] is the dot product of row [i] of [x] and row [j] of
    [y] over the columns of [x]; [idx_dist p x y i j] is the sum of the
    squared differences over [p] columns, a single column being
    stretched. *)
Definition idx_dot (x y : array2) (i j : nat) : R :=
  sumr (mkseq (fun k => get2 x i k * get2 y j k) (cols x)).

Definition idx_dist (p : nat) (x y : array2) (i j : nat) : R :=
  sumr (mkseq (fun k =>
          (get2 x i (bidx (cols x) k) - get2 y j (bidx (cols y) k)) *
          (get2 x i (bidx (cols x) k) - get2 y j (bidx (cols y) k))) p).

(** ** CPU and GPU arrays *)

(** The array library an array comes from, what [cp.get_array_module]
    returns. *)
Inductive backend : Type := NumPy | CuPy.

Definition backend_eqb (b c : backend) : bool :=
  match b, c with
  | NumPy, NumPy | CuPy, CuPy => true
  | _, _ => false
  end.

(** An array of either library: a CPU array or a GPU array. *)
Inductive ndarray : Type :=
  | CpuArray of array2
  | GpuArray of array2.

Definition get_array_module (x : ndarray) : backend :=
  match x with
  | CpuArray _ => NumPy
  | GpuArray _ => CuPy
  end.

Definition payload (x : ndarray) : array2 :=
  match x with
  | CpuArray a => a
  | GpuArray a => a
  end.

Definition wrap (xp : backend) (a : array2) : ndarray :=
  match xp with
  | NumPy => CpuArray a
  | CuPy => GpuArray a
  end.

(** The operations [euclidean] takes from the library of its arguments. *)
Record array_ops : Type := ArrayOps {
  xp_mul : array2 -> array2 -> result array2;
  xp_sum_axis1 : array2 -> array1;
  xp_col_newaxis : array1 -> array2;
  xp_row_newaxis : array1 -> array2;
  xp_transpose : array2 -> array2;
  xp_dot : array2 -> array2 -> result array2;
  xp_add : array2 -> array2 -> result array2;
  xp_scale : R -> array2 -> array2;
  xp_sub : array2 -> array2 -> result array2;
  xp_abs : array2 -> array2
}.

Definition np : array_ops :=
  ArrayOps np_mul sum_axis1 col_newaxis row_newaxis transpose np_dot
           np_add np_scale np_sub np_abs.

(** CuPy is not part of the repository: its operations are a parameter. *)
Variable cp : array_ops.

Definition module_ops (xp : backend) : array_ops :=
  match xp with
  | NumPy => np
  | CuPy => cp
  end.

Definition euclidean_cp (x y : array2) : result array2 :=
  xp_mul cp x x >>= fun xx =>
  let x2 := xp_col_newaxis cp (xp_sum_axis1 cp xx) in
  xp_mul cp y y >>= fun yy =>
  let y2 := xp_row_newaxis cp (xp_sum_axis1 cp yy) in
  xp_dot cp x (xp_transpose cp y) >>= fun xy =>
  xp_add cp x2 y2 >>= fun s =>
  xp_sub cp s (xp_scale cp 2 xy) >>= fun d =>
  Ok (xp_abs cp d).

Definition euclidean (x y : ndarray) : result ndarray :=
  let xp := get_array_module x in
  if ~~ backend_eqb xp (get_array_module y) then Err AssertionError else
  let ops := module_ops xp in
  xp_mul ops (payload x) (payload x) >>= fun xx =>
  let x2 := xp_col_newaxis ops (xp_sum_axis1 ops xx) in
  xp_mul ops (payload y) (payload y) >>= fun yy =>
  let y2 := xp_row_newaxis ops (xp_sum_axis1 ops yy) in
  xp_dot ops (payload x) (xp_transpose ops (payload y)) >>= fun xy =>
  xp_add ops x2 y2 >>= fun s =>
  xp_sub ops s (xp_scale ops 2 xy) >>= fun d =>
  Ok (wrap xp (xp_abs ops d)).

End Arrays.

(** ** Concrete batches over the integers *)

(** The batch of the first scenario of the specification, a batch of one
    sample with two features and a batch of one sample with one feature. *)
Definition batch_a : array2 int := Array2 2 2 [:: [:: 0; 0]; [:: 3; 4]].

Definition batch_b : array2 int := Array2 1 2 [:: [:: 1; 2]].

Definition batch_c : array2 int := Array2 1 1 [:: [:: 1]].

(** ** The other cells of the NumPy notebook *)

Section Cells.

Variable R : realDomainType.

(** [.max()]: the largest entry; NumPy raises [ValueError] on an array
    without entries. *)
Definition max_of (s : seq R) : result R :=
  if s is a :: s' then Ok (foldl Num.max a s') else Err ValueError.

Definition np_max2 (a : array2 R) : result R := max_of (flatten (data2 a)).


(** The cell [xy = np.dot(x, x.T)]. *)
Definition gram_cell (x : array2 R) : result (array2 R) :=
  np_dot x (transpose x).

(** The cell [np.abs(euclidean_broadcast(x, x) - euclidean_trick(x, x)).max()]. *)
Definition compare_cell (x : array2 R) : result R :=
  euclidean_broadcast x x >>= fun b =>
  euclidean_trick x x >>= fun t =>
  np_sub b t >>= fun d =>
  np_max2 (np_abs d).

End Cells.

(** A batch without samples. *)
Definition batch_0 : array2 int := Array2 0 2 [::].

(** ** The algebraic-expansion routine on binary64 numbers *)

(** The primitives and the routine once more, on IEEE 754 binary64
    numbers, the [float64] entries of the arrays of the notebooks, with
    the rounding, the infinities and the NaN of the machine.  The order
    in which NumPy adds up the terms of a sum is not part of the
    repository: the sum of [np.einsum] and the sum of [np.dot] are the
    parameters [esum] and [dsum]. *)
Module F64.

Record array1 : Type := Array1 { len : nat; data1 : seq float }.

Record array2 : Type :=
  Array2 { rows : nat; cols : nat; data2 : seq (seq float) }.

Definition get1 (v : array1) (i : nat) : float := nth 0%float (data1 v) i.

Definition row (a : array2) (i : nat) : seq float := nth [::] (data2 a) i.

Definition get2 (a : array2) (i j : nat) : float := nth 0%float (row a i) j.

Definition build1 (n : nat) (f : nat -> float) : array1 :=
  Array1 n (mkseq f n).

Definition build2 (n m : nat) (f : nat -> nat -> float) : array2 :=
  Array2 n m (mkseq (fun i => mkseq (f i) m) n).

Section Routine.

Variables esum dsum : seq float -> float.

Definition broadcast2 (op : float -> float -> float) (a b : array2) :
    result array2 :=
  bdim (rows a) (rows b) >>= fun n =>
  bdim (cols a) (cols b) >>= fun m =>
  Ok (build2 n m (fun i j =>
        op (get2 a (bidx (rows a) i) (bidx (cols a) j))
           (get2 b (bidx (rows b) i) (bidx (cols b) j)))).

Definition np_add : array2 -> array2 -> result array2 :=
  broadcast2 PrimFloat.add.

Definition np_sub : array2 -> array2 -> result array2 :=
  broadcast2 PrimFloat.sub.

Definition np_scale (c : float) (a : array2) : array2 :=
  build2 (rows a) (cols a) (fun i j => PrimFloat.mul c (get2 a i j)).

Definition np_abs (a : array2) : array2 :=
  build2 (rows a) (cols a) (fun i j => PrimFloat.abs (get2 a i j)).

Definition transpose (a : array2) : array2 :=
  build2 (cols a) (rows a) (fun i j => get2 a j i).

Definition np_dot (a b : array2) : result array2 :=
  if cols a == rows b then
    Ok (build2 (rows a) (cols b) (fun i j =>
          dsum (mkseq (fun k => PrimFloat.mul (get2 a i k) (get2 b k j))
                      (cols a))))
  else Err ValueError.

Definition einsum_ij_ij_i (a b : array2) : result array1 :=
  bdim (rows a) (rows b) >>= fun n =>
  bdim (cols a) (cols b) >>= fun m =>
  Ok (build1 n (fun i =>
        esum (mkseq (fun j =>
                PrimFloat.mul
                  (get2 a (bidx (rows a) i) (bidx (cols a) j))
                  (get2 b (bidx (rows b) i) (bidx (cols b) j))) m))).

Definition col_newaxis (v : array1) : array2 :=
  build2 (len v) 1 (fun i _ => get1 v i).

Definition row_newaxis (v : array1) : array2 :=
  build2 1 (len v) (fun _ j => get1 v j).

Definition euclidean_trick (x y : array2) : result array2 :=
  einsum_ij_ij_i x x >>= fun ex =>
  let x2 := col_newaxis ex in
  einsum_ij_ij_i y y >>= fun ey =>
  let y2 := row_newaxis ey in
  np_dot x (transpose y) >>= fun xy =>
  np_add x2 y2 >>= fun s =>
  np_sub s (np_scale 2%float xy) >>= fun d =>
  Ok (np_abs d).

(** The entries of [np.einsum('ij,ij->i', x, x)] and of [np.dot(x, y.T)],
    by index. *)
Definition row_norm (x : array2) (i : nat) : float :=
  esum (mkseq (fun k => PrimFloat.mul (get2 x i k) (get2 x i k)) (cols x)).

Definition row_dot (x y : array2) (i j : nat) : float :=
  dsum (mkseq (fun k => PrimFloat.mul (get2 x i k) (get2 y j k)) (cols x)).

End Routine.

(** The sum from the left, starting from 0, and with it the squared
    Euclidean distance of two rows. *)
Definition sum_lr (s : seq float) : float := foldl PrimFloat.add 0%float s.

Definition sq_dist (u v : seq float) : float :=
  sum_lr [seq PrimFloat.mul (PrimFloat.sub a.1 a.2) (PrimFloat.sub a.1 a.2)
         | a <- zip u v].

(** Batches of one sample with one feature: 2^27 + 1, 2^27 and 2^600. *)
Definition batch_p : array2 := Array2 1 1 [:: [:: 134217729%float]].

Definition batch_q : array2 := Array2 1 1 [:: [:: 134217728%float]].


End F64.

(** * Properties *)

Section Theory.

Variable R : realDomainType.

Implicit Types (x y : array2 R).

(** ** Builders, sums and broadcasting *)

Lemma eq_in_mkseq (T : Type) (f g : nat -> T) (n : nat) :
  (forall i, (i < n)%N -> f i = g i) -> mkseq f n = mkseq g n.
Proof.
move=> fg; apply/eq_in_map => i; rewrite mem_iota add0n => /andP[_].
exact: fg.
Qed.

Lemma sumr_mkseq (f : nat -> R) (n : nat) :
  sumr (mkseq f n) = \sum_(0 <= k < n) f k.
Proof. by rewrite /sumr foldrE big_map /index_iota subn0. Qed.

Lemma eq_sumr_mkseq (f g : nat -> R) (n : nat) :
  (forall k, (k < n)%N -> f k = g k) ->
  sumr (mkseq f n) = sumr (mkseq g n).
Proof. by move=> fg; rewrite (eq_in_mkseq fg). Qed.

Lemma get1_build1 n (f : nat -> R) i : (i < n)%N -> get1 (build1 n f) i = f i.
Proof. by move=> lt_in; rewrite /get1 /= nth_mkseq. Qed.

Lemma get2_build2 n m (f : nat -> nat -> R) i j :
  (i < n)%N -> (j < m)%N -> get2 (build2 n m f) i j = f i j.
Proof.
by move=> lt_in lt_jm; rewrite /get2 /row /= nth_mkseq // nth_mkseq.
Qed.

Lemma get3_build3 n m p (f : nat -> nat -> nat -> R) i j k :
  (i < n)%N -> (j < m)%N -> (k < p)%N -> get3 (build3 n m p f) i j k = f i j k.
Proof.
by move=> lt_in lt_jm lt_kp; rewrite /get3 /= !nth_mkseq.
Qed.

Lemma eq_build1 n (f g : nat -> R) :
  (forall i, (i < n)%N -> f i = g i) -> build1 n f = build1 n g.
Proof. by move=> fg; rewrite /build1 (eq_in_mkseq fg). Qed.

Lemma eq_build2 n m (f g : nat -> nat -> R) :
  (forall i j, (i < n)%N -> (j < m)%N -> f i j = g i j) ->
  build2 n m f = build2 n m g.
Proof.
move=> fg; rewrite /build2; congr Array2.
by apply: eq_in_mkseq => i lt_in; apply: eq_in_mkseq => j; apply: fg.
Qed.

Lemma bdimnn n : bdim n n = Ok n.
Proof. by rewrite /bdim eqxx. Qed.

Lemma bdimn1 n : bdim n 1 = Ok n.
Proof. by rewrite /bdim; case: eqP => [->|_] //; case: eqP. Qed.

Lemma bdim1n n : bdim 1 n = Ok n.
Proof. by rewrite /bdim eq_sym; case: eqP => [->|_]. Qed.

Lemma bidx_id d i : (i < d)%N -> bidx d i = i.
Proof. by rewrite /bidx; case: eqP => // ->; case: i. Qed.

Lemma bidx1 i : bidx 1 i = 0%N.
Proof. by []. Qed.

(** ** What the primitives return on the arguments of the routines *)

Lemma einsum_self x :
  einsum_ij_ij_i x x = Ok (build1 (rows x) (fun i => idx_dot x x i i)).
Proof.
rewrite /einsum_ij_ij_i !bdimnn /=; congr Ok.
apply: eq_build1 => i lt_i; apply: eq_sumr_mkseq => k lt_k.
by rewrite !bidx_id.
Qed.

Lemma np_mul_self x :
  np_mul x x =
  Ok (build2 (rows x) (cols x) (fun i j => get2 x i j * get2 x i j)).
Proof.
rewrite /np_mul /broadcast2 !bdimnn /=; congr Ok.
by apply: eq_build2 => i j lt_i lt_j; rewrite !bidx_id.
Qed.

Lemma np_dot_transpose x y :
  cols x = cols y ->
  np_dot x (transpose y) = Ok (build2 (rows x) (rows y) (idx_dot x y)).
Proof.
move=> eq_c; rewrite /np_dot /= eq_c eqxx; congr Ok.
apply: eq_build2 => i j lt_i lt_j; rewrite /idx_dot eq_c.
by apply: eq_sumr_mkseq => k lt_k; rewrite get2_build2.
Qed.

Lemma np_dot_transpose_err x y :
  cols x <> cols y -> np_dot x (transpose y) = Err ValueError.
Proof. by rewrite /np_dot /=; case: eqP. Qed.

(** The combination [np.abs(x2 + y2 - 2. * xy)] of a column [f], a row [g]
    and a matrix [h]. *)
Lemma combine_ok n m (f g : nat -> R) (h : nat -> nat -> R) :
  np_add (col_newaxis (build1 n f)) (row_newaxis (build1 m g)) >>= (fun s =>
  np_sub s (np_scale 2 (build2 n m h)) >>= fun d => Ok (np_abs d)) =
  Ok (build2 n m (fun i j => `|f i + g j - 2 * h i j|)).
Proof.
rewrite /np_add /np_sub /broadcast2 /= bdimn1 bdim1n /= !bdimnn /= /np_abs /=.
congr Ok; apply: eq_build2 => i j lt_i lt_j.
do ![rewrite get2_build2 ?(bidx_id lt_i) ?(bidx_id lt_j) ?bidx1 //].
by rewrite !get1_build1.
Qed.

(** ** Closed forms of the routines *)

Lemma euclidean_trick_ok x y :
  cols x = cols y ->
  euclidean_trick x y =
  Ok (build2 (rows x) (rows y) (fun i j =>
        `|idx_dot x x i i + idx_dot y y j j - 2 * idx_dot x y i j|)).
Proof.
move=> eq_c; rewrite /euclidean_trick !einsum_self /= np_dot_transpose //=.
exact: combine_ok.
Qed.

Lemma euclidean_trick_err x y :
  cols x <> cols y -> euclidean_trick x y = Err ValueError.
Proof.
by move=> ne_c; rewrite /euclidean_trick !einsum_self /= np_dot_transpose_err.
Qed.

(** On a pair of broadcast axes every index below the common length is
    read inside both axes. *)
Lemma bdim_bidx (a b p k : nat) :
  bdim a b = Ok p -> (k < p)%N -> (bidx a k < a)%N /\ (bidx b k < b)%N.
Proof.
rewrite /bdim /bidx; case: (a =P b) => [-> [->] lt_k|_].
  by case: eqP => // e1; rewrite e1 in lt_k *.
case: (a =P 1%N) => [-> [->] lt_k|_]; first by case: eqP lt_k => // ->.
by case: (b =P 1%N) => // -> [->].
Qed.

Lemma euclidean_broadcast_ok x y p :
  bdim (cols x) (cols y) = Ok p ->
  euclidean_broadcast x y = Ok (build2 (rows x) (rows y) (idx_dist p x y)).
Proof.
move=> bd; rewrite /euclidean_broadcast /np_sub3 /np_mul3 /broadcast3 /=.
rewrite bdimn1 bdim1n /= bd /= !bdimnn /= /sum_axis2 /=; congr Ok.
apply: eq_build2 => i j lt_i lt_j; apply: eq_sumr_mkseq => k lt_k.
have [lt_kx lt_ky] := bdim_bidx bd lt_k.
rewrite get3_build3 // !(bidx_id lt_i) !(bidx_id lt_j) !(bidx_id lt_k).
rewrite get3_build3 // !bidx1 /mid_newaxis /front_newaxis.
by rewrite ?(bidx_id lt_i) ?(bidx_id lt_j) !get3_build3.
Qed.

Lemma euclidean_broadcast_err x y e :
  bdim (cols x) (cols y) = Err e -> euclidean_broadcast x y = Err e.
Proof.
move=> bd; rewrite /euclidean_broadcast /np_sub3 /broadcast3 /=.
by rewrite bdimn1 bdim1n /= bd.
Qed.

Lemma euclidean_np_ok x y :
  cols x = cols y ->
  euclidean_np x y =
  Ok (build2 (rows x) (rows y) (fun i j =>
        `|idx_dot x x i i + idx_dot y y j j - 2 * idx_dot x y i j|)).
Proof.
move=> eq_c; rewrite /euclidean_np !np_mul_self /= np_dot_transpose //=.
rewrite /sum_axis1 /=.
have sq (z : array2 R) : build1 (rows z) (fun i => sumr (mkseq (fun j =>
       get2 (build2 (rows z) (cols z) (fun i0 j0 => get2 z i0 j0 * get2 z i0 j0))
            i j) (cols z))) = build1 (rows z) (fun i => idx_dot z z i i).
  apply: eq_build1 => i lt_i; apply: eq_sumr_mkseq => k lt_k.
  by rewrite get2_build2.
by rewrite !sq; apply: combine_ok.
Qed.

(** ** The algebraic expansion *)

Lemma sqrB_expand (a b : R) :
  (a - b) * (a - b) = a * a + b * b - 2 * (a * b).
Proof.
rewrite mulrBr !mulrBl [b * a]mulrC mulr_natl mulr2n opprB opprD !addrA.
by congr (_ - _); rewrite addrAC.
Qed.

Lemma idx_dist_expand x y i j :
  cols x = cols y ->
  idx_dist (cols x) x y i j =
  idx_dot x x i i + idx_dot y y j j - 2 * idx_dot x y i j.
Proof.
move=> eq_c; rewrite /idx_dist /idx_dot -eq_c.
rewrite (@eq_sumr_mkseq _ (fun k =>
  get2 x i k * get2 x i k + get2 y j k * get2 y j k -
  2 * (get2 x i k * get2 y j k))).
  by move=> k lt_k; rewrite !bidx_id -?eq_c // sqrB_expand.
by rewrite !sumr_mkseq mulr_sumr -big_split -sumrB.
Qed.

Lemma idx_dist_ge0 p x y i j : 0 <= idx_dist p x y i j.
Proof.
rewrite /idx_dist sumr_mkseq; apply: sumr_ge0 => k _.
by rewrite -expr2 sqr_ge0.
Qed.

Lemma idx_dotC x y i j : cols x = cols y -> idx_dot x y i j = idx_dot y x j i.
Proof.
move=> eq_c; rewrite /idx_dot eq_c; apply: eq_sumr_mkseq => k _.
by rewrite mulrC.
Qed.

(** ** Rows of a well-formed batch *)

Lemma size_row x i : wf2 x -> (i < rows x)%N -> size (row x i) = cols x.
Proof.
case/andP=> /eqP sz /all_nthP-/(_ [::]) all_c lt_i.
by apply/eqP/all_c; rewrite sz.
Qed.

Lemma mkseq_zip (f : R -> R -> R) (u v : seq R) (m : nat) :
  size u = m -> size v = m ->
  mkseq (fun k => f (nth 0 u k) (nth 0 v k)) m =
  [seq f a.1 a.2 | a <- zip u v].
Proof.
move=> su sv; apply: (@eq_from_nth _ 0).
  by rewrite size_mkseq size_map size_zip su sv minnn.
move=> k; rewrite size_mkseq => lt_k; rewrite nth_mkseq //.
rewrite (nth_map (0, 0)) ?size_zip ?su ?sv ?minnn //.
by rewrite nth_zip ?su ?sv.
Qed.

Lemma idx_dot_rows x y i j :
  wf2 x -> wf2 y -> cols x = cols y -> (i < rows x)%N -> (j < rows y)%N ->
  idx_dot x y i j = dotp (row x i) (row y j).
Proof.
move=> wx wy eq_c lt_i lt_j; rewrite /idx_dot /dotp /get2.
by rewrite (@mkseq_zip *%R) ?size_row // -eq_c.
Qed.

Lemma idx_dist_rows x y i j :
  wf2 x -> wf2 y -> cols x = cols y -> (i < rows x)%N -> (j < rows y)%N ->
  idx_dist (cols x) x y i j = sq_dist (row x i) (row y j).
Proof.
move=> wx wy eq_c lt_i lt_j; rewrite /idx_dist /sq_dist.
rewrite (@eq_sumr_mkseq _ (fun k =>
  (nth 0 (row x i) k - nth 0 (row y j) k) ^+ 2)).
  by move=> k lt_k; rewrite /get2 !bidx_id -?eq_c // expr2.
by rewrite (@mkseq_zip (fun a b => (a - b) ^+ 2)) ?size_row // -eq_c.
Qed.

Lemma wf_build2 n m (f : nat -> nat -> R) : wf2 (build2 n m f).
Proof.
rewrite /wf2 /= size_mkseq eqxx /=.
by apply/allP => r /mapP[i _ ->]; rewrite size_mkseq.
Qed.

(** * The claims of the specification *)

(** In exact arithmetic [euclidean_trick] returns the matrix of the
    squared Euclidean distances of the rows. *)
Lemma euclidean_trick_exact x y :
  wf2 x -> wf2 y -> cols x = cols y ->
  exists D,
    [/\ euclidean_trick x y = Ok D, wf2 D, rows D = rows x, cols D = rows y &
        forall i j, (i < rows x)%N -> (j < rows y)%N ->
          get2 D i j =
            `|sq_norm (row x i) + sq_norm (row y j)
              - 2 * dotp (row x i) (row y j)| /\
          get2 D i j = sq_dist (row x i) (row y j)].
Proof.
move=> wx wy eq_c; eexists; split; first exact: euclidean_trick_ok.
- exact: wf_build2.
- by [].
- by [].
move=> i j lt_i lt_j; rewrite get2_build2 //; split.
  by rewrite /sq_norm !idx_dot_rows.
by rewrite -idx_dist_expand // ger0_norm ?idx_dist_ge0 // idx_dist_rows.
Qed.

(** With equal column counts both routines return the matrix of the sums
    of squared differences. *)
Lemma euclidean_trick_dist x y :
  cols x = cols y ->
  euclidean_trick x y =
  Ok (build2 (rows x) (rows y) (idx_dist (cols x) x y)).
Proof.
move=> eq_c; rewrite euclidean_trick_ok //; congr Ok.
apply: eq_build2 => i j _ _.
by rewrite -idx_dist_expand // ger0_norm // idx_dist_ge0.
Qed.

Lemma euclidean_broadcast_dist x y :
  cols x = cols y ->
  euclidean_broadcast x y =
  Ok (build2 (rows x) (rows y) (idx_dist (cols x) x y)).
Proof. by move=> eq_c; apply: euclidean_broadcast_ok; rewrite eq_c bdimnn. Qed.

(** C2: on batches with the same number of feature columns the
    direct-difference strategy and the algebraic-expansion strategy return
    the same matrix. *)
Theorem strategies_agree x y :
  cols x = cols y ->
  exists D, euclidean_broadcast x y = Ok D /\ euclidean_trick x y = Ok D.
Proof.
move=> eq_c; eexists; split; first exact: euclidean_broadcast_dist.
exact: euclidean_trick_dist.
Qed.


(** C3, as the code has it: when the feature-column counts differ,
    [euclidean_trick] always fails with [ValueError]; so does
    [euclidean_broadcast] unless one of the two counts is 1, in which case
    the single column is stretched over the columns of the other batch and
    a matrix is returned. *)
Theorem shape_mismatch x y :
  cols x <> cols y ->
  [/\ euclidean_trick x y = Err ValueError,
      cols x <> 1%N -> cols y <> 1%N ->
        euclidean_broadcast x y = Err ValueError &
      cols x = 1%N \/ cols y = 1%N ->
        euclidean_broadcast x y =
        Ok (build2 (rows x) (rows y)
              (idx_dist (if cols x == 1%N then cols y else cols x) x y))].
Proof.
move=> ne_c; split; first exact: euclidean_trick_err.
  move=> /eqP nx /eqP ny; apply: euclidean_broadcast_err.
  by rewrite /bdim (negbTE nx) (negbTE ny); case: eqP.
move=> one; apply: euclidean_broadcast_ok; rewrite /bdim.
case: eqP => // _; case: (cols x =P 1%N) => // nx.
by case: one => // ->.
Qed.


Lemma idx_dist_sym p x y i j : idx_dist p x y i j = idx_dist p y x j i.
Proof.
rewrite /idx_dist; apply: eq_sumr_mkseq => k _.
by rewrite -mulrNN !opprB.
Qed.



(** C6: swapping the two batches transposes the matrix. *)
Theorem swap_transposes x y i j :
  cols x = cols y -> (i < rows x)%N -> (j < rows y)%N ->
  exists D D',
    [/\ euclidean_trick x y = Ok D, euclidean_trick y x = Ok D',
        euclidean_broadcast x y = Ok D, euclidean_broadcast y x = Ok D' &
        get2 D i j = get2 D' j i].
Proof.
move=> eq_c lt_i lt_j; do 2!eexists; split.
- exact: euclidean_trick_dist.
- exact: euclidean_trick_dist.
- exact: euclidean_broadcast_dist.
- exact: euclidean_broadcast_dist.
- by rewrite !get2_build2 // -eq_c; apply: idx_dist_sym.
Qed.

(** C7: the two fixtures of the specification, for both strategies. *)
Theorem fixtures :
  let x : array2 R := Array2 2 2 [:: [:: 0; 0]; [:: 3; 4]] in
  let D : array2 R := Array2 2 2 [:: [:: 0; 25]; [:: 25; 0]] in
  let u : array2 R := Array2 1 3 [:: [:: 1; 2; 3]] in
  let v : array2 R := Array2 1 3 [:: [:: 4; 5; 6]] in
  let E : array2 R := Array2 1 1 [:: [:: 27]] in
  [/\ euclidean_trick x x = Ok D, euclidean_broadcast x x = Ok D,
      euclidean_trick u v = Ok E & euclidean_broadcast u v = Ok E].
Proof.
move=> x D u v E.
rewrite !euclidean_trick_dist // !euclidean_broadcast_dist //.
have eD : build2 (rows x) (rows x) (idx_dist (cols x) x x) = D.
  rewrite /build2 /idx_dist /sumr /get2 /row /D /mkseq /= /bidx /=.
  rewrite !sqrB_expand ?(mulr0, mul0r, addr0, add0r, subr0, subrr, oppr0).
  by rewrite -?natrM -?natrD -?natrB // -?natrD.
have eE : build2 (rows u) (rows v) (idx_dist (cols u) u v) = E.
  rewrite /build2 /idx_dist /sumr /get2 /row /E /mkseq /= /bidx /=.
  rewrite !sqrB_expand ?(addr0, mulr1, mul1r).
  by rewrite -?natrM ?nat1r -?natrD -?natrB // -?natrD.
by rewrite eD eE.
Qed.

Variable cp : array_ops R.

(** C9: [euclidean] raises [AssertionError] whenever its two arguments
    come from different array libraries, whatever their shapes and
    whatever the libraries compute; on two CPU arrays it returns the CPU
    array [euclidean_np] computes, on two GPU arrays the GPU array
    [euclidean_cp] computes. *)
Theorem euclidean_dispatch (x y : ndarray R) :
  [/\ get_array_module x <> get_array_module y ->
        euclidean cp x y = Err AssertionError,
      get_array_module x = NumPy -> get_array_module y = NumPy ->
        euclidean cp x y =
        (euclidean_np (payload x) (payload y) >>= fun D => Ok (CpuArray D)) &
      get_array_module x = CuPy -> get_array_module y = CuPy ->
        euclidean cp x y =
        (euclidean_cp cp (payload x) (payload y) >>= fun D =>
         Ok (GpuArray D))].
Proof.
split.
- by case: x => x'; case: y => y'.
- case: x => x'; case: y => y' //= _ _.
  rewrite /euclidean /euclidean_np /=.
  case: (np_mul x' x') => //= xx; case: (np_mul y' y') => //= yy.
  case: (np_dot _ _) => //= xy; case: (np_add _ _) => //= s.
  by case: (np_sub _ _).
- case: x => x'; case: y => y' //= _ _.
  rewrite /euclidean /euclidean_cp /=.
  case: (xp_mul cp x' x') => //= xx; case: (xp_mul cp y' y') => //= yy.
  case: (xp_dot cp _ _) => //= xy; case: (xp_add cp _ _) => //= s.
  by case: (xp_sub cp _ _).
Qed.

End Theory.

(** * Instances on the integers *)

Lemma strategies_agree_witness :
  cols batch_a = cols batch_b /\
  exists D, euclidean_broadcast batch_a batch_b = Ok D /\
            euclidean_trick batch_a batch_b = Ok D.
Proof.
split; [reflexivity | apply: (@strategies_agree _ batch_a batch_b)].
reflexivity.
Defined.

(** C3 as stated fails: the two batches have one and two feature columns,
    and [euclidean_broadcast] returns a matrix instead of failing. *)
Lemma shape_mismatch_counterexample :
  [/\ wf2 batch_c, wf2 batch_b, cols batch_c <> cols batch_b,
      euclidean_broadcast batch_c batch_b = Ok (Array2 1 1 [:: [:: 1]]) &
      euclidean_broadcast batch_c batch_b <> Err ValueError].
Proof.
have run : euclidean_broadcast batch_c batch_b = Ok (Array2 1 1 [:: [:: 1]]).
  reflexivity.
split; [reflexivity | reflexivity | by [] | exact: run | by rewrite run].
Defined.

Lemma shape_mismatch_witness :
  cols batch_c <> cols batch_b /\
  [/\ euclidean_trick batch_c batch_b = Err ValueError,
      cols batch_c <> 1%N -> cols batch_b <> 1%N ->
        euclidean_broadcast batch_c batch_b = Err ValueError &
      cols batch_c = 1%N \/ cols batch_b = 1%N ->
        euclidean_broadcast batch_c batch_b =
        Ok (build2 (rows batch_c) (rows batch_b)
              (idx_dist (if cols batch_c == 1%N then cols batch_b
                         else cols batch_c) batch_c batch_b))].
Proof.
have ne : cols batch_c <> cols batch_b by [].
split; [exact: ne | exact: (@shape_mismatch _ batch_c batch_b ne)].
Defined.


Lemma swap_transposes_witness :
  [/\ cols batch_a = cols batch_b, (1 < rows batch_a)%N, (0 < rows batch_b)%N &
      exists D D',
        [/\ euclidean_trick batch_a batch_b = Ok D,
            euclidean_trick batch_b batch_a = Ok D',
            euclidean_broadcast batch_a batch_b = Ok D,
            euclidean_broadcast batch_b batch_a = Ok D' &
            get2 D 1 0 = get2 D' 0 1]].
Proof.
split; [reflexivity | reflexivity | reflexivity | ].
apply: (@swap_transposes _ batch_a batch_b 1 0); reflexivity.
Defined.

Lemma euclidean_dispatch_witness :
  get_array_module (CpuArray batch_a) <> get_array_module (GpuArray batch_a) /\
  euclidean (np int) (CpuArray batch_a) (GpuArray batch_a) =
  Err AssertionError.
Proof.
have ne :
  get_array_module (CpuArray batch_a) <> get_array_module (GpuArray batch_a).
  by [].
split; first exact: ne.
by case: (euclidean_dispatch (np int) (CpuArray batch_a) (GpuArray batch_a));
  move=> H _ _; apply: H.
Defined.

(** * Further properties *)

Section More.

Variable R : realDomainType.

Implicit Types (x y : array2 R).

(** ** Zero distances *)

Lemma sq_dist_ge0 (u v : seq R) : 0 <= sq_dist u v.
Proof.
rewrite /sq_dist /sumr foldrE big_map; apply: sumr_ge0 => a _.
exact: sqr_ge0.
Qed.

Lemma sq_dist_eq0 (u v : seq R) :
  size u = size v -> (sq_dist u v == 0) = (u == v).
Proof.
elim: u v => [|a u IH] [|b v] //=; first by rewrite /sq_dist /= !eqxx.
case=> sz; rewrite [sq_dist _ _]/(_ + sq_dist u v).
by rewrite paddr_eq0 ?sqr_ge0 ?sq_dist_ge0 // sqrf_eq0 subr_eq0 eqseq_cons IH.
Qed.

(** X1: in exact arithmetic, on well-formed batches with the same number
    of feature columns, an entry of the distance matrix is zero exactly
    when the two rows it compares are the same feature vector. *)
Theorem zero_distance x y i j :
  wf2 x -> wf2 y -> cols x = cols y -> (i < rows x)%N -> (j < rows y)%N ->
  exists D,
    [/\ euclidean_trick x y = Ok D, euclidean_broadcast x y = Ok D &
        get2 D i j = 0 <-> row x i = row y j].
Proof.
move=> wx wy eq_c lt_i lt_j; eexists; split.
- exact: euclidean_trick_dist.
- exact: euclidean_broadcast_dist.
rewrite get2_build2 // idx_dist_rows //.
have sz : size (row x i) = size (row y j) by rewrite !size_row.
split=> [/eqP|eq_r]; first by rewrite sq_dist_eq0 // => /eqP.
by apply/eqP; rewrite sq_dist_eq0 //; apply/eqP.
Qed.

(** ** Batches without samples or without features *)

Lemma mkseq_const (T : Type) (c : T) (n : nat) : mkseq (fun _ => c) n = nseq n c.
Proof.
apply: (@eq_from_nth _ c); first by rewrite size_mkseq size_nseq.
by move=> i; rewrite size_mkseq => lt_i; rewrite nth_mkseq // nth_nseq lt_i.
Qed.

(** X2: batches without samples or without features are accepted: with no
    row in [x] the result has no row, with no row in [y] it has [rows x]
    empty rows, and with no feature column every entry is 0. *)
Theorem empty_batches x y :
  cols x = cols y ->
  [/\ rows x = 0%N ->
        euclidean_trick x y = Ok (Array2 0 (rows y) [::]) /\
        euclidean_broadcast x y = Ok (Array2 0 (rows y) [::]),
      rows y = 0%N ->
        euclidean_trick x y = Ok (Array2 (rows x) 0 (nseq (rows x) [::])) /\
        euclidean_broadcast x y = Ok (Array2 (rows x) 0 (nseq (rows x) [::])) &
      cols x = 0%N ->
        euclidean_trick x y = Ok (build2 (rows x) (rows y) (fun _ _ => 0)) /\
        euclidean_broadcast x y = Ok (build2 (rows x) (rows y) (fun _ _ => 0))].
Proof.
move=> eq_c; rewrite euclidean_trick_dist // euclidean_broadcast_dist //.
split=> [-> //|->|->]; last by [].
by rewrite /build2 /= mkseq_const.
Qed.

(** ** The comparison cells *)

Lemma foldl_max0 (n : nat) : foldl Num.max (0 : R) (nseq n 0) = 0.
Proof. by elim: n => //= n IH; rewrite maxxx. Qed.

Lemma max_of_zeros (n : nat) :
  max_of (nseq n (0 : R)) = if n == 0%N then Err ValueError else Ok 0.
Proof. by case: n => //= n; rewrite foldl_max0. Qed.

Lemma flatten_nseq (T : Type) (c : T) (n m : nat) :
  flatten (nseq n (nseq m c)) = nseq (n * m) c.
Proof. by elim: n => //= n ->; rewrite mulSn nseqD. Qed.

(** X3: the cell that compares the two routines on one batch evaluates to 0,
    except on a batch without rows, where [.max()] raises [ValueError]. *)
Theorem compare_cell_value x :
  compare_cell x = if rows x == 0%N then Err ValueError else Ok 0.
Proof.
rewrite /compare_cell euclidean_broadcast_dist // euclidean_trick_dist //=.
rewrite /np_sub /broadcast2 /= !bdimnn /= /np_abs /=.
set z := build2 _ _ _.
have -> : z = build2 (rows x) (rows x) (fun _ _ => 0).
  apply: eq_build2 => i j lt_i lt_j.
  by rewrite get2_build2 // subrr normr0.
rewrite /np_max2 /= !mkseq_const flatten_nseq max_of_zeros muln_eq0.
by rewrite orbb.
Qed.

(** ** The Gram matrix and the sums of the norms *)

Lemma idx_dot_self_ge0 x i : 0 <= idx_dot x x i i.
Proof.
rewrite /idx_dot sumr_mkseq; apply: sumr_ge0 => k _.
by rewrite -expr2 sqr_ge0.
Qed.

(** X6: [np.dot(x, x.T)] succeeds on every batch; the result is an
    N-by-N symmetric matrix and, in exact arithmetic, its diagonal is
    non-negative. *)
Theorem gram_matrix x i j :
  (i < rows x)%N -> (j < rows x)%N ->
  exists G,
    [/\ gram_cell x = Ok G, rows G = rows x, cols G = rows x,
        get2 G i j = get2 G j i & 0 <= get2 G i i].
Proof.
move=> lt_i lt_j; eexists; split.
- exact: np_dot_transpose.
- by [].
- by [].
- by rewrite !get2_build2 //; apply: idx_dotC.
- by rewrite get2_build2 // idx_dot_self_ge0.
Qed.



(** ** The routines of the CuPy notebook *)

Variable cp : array_ops R.

Lemma euclidean_np_dist x y :
  cols x = cols y ->
  euclidean_np x y = Ok (build2 (rows x) (rows y) (idx_dist (cols x) x y)).
Proof.
move=> eq_c; rewrite euclidean_np_ok //; congr Ok.
apply: eq_build2 => i j _ _.
by rewrite -idx_dist_expand // ger0_norm // idx_dist_ge0.
Qed.

Lemma euclidean_np_err x y :
  cols x <> cols y -> euclidean_np x y = Err ValueError.
Proof.
by move=> ne_c; rewrite /euclidean_np !np_mul_self /= np_dot_transpose_err.
Qed.

Lemma euclidean_cpu x y :
  euclidean cp (CpuArray x) (CpuArray y) =
  (euclidean_np x y >>= fun D => Ok (CpuArray D)).
Proof.
rewrite /euclidean /euclidean_np /=.
case: (np_mul x x) => //= xx; case: (np_mul y y) => //= yy.
case: (np_dot _ _) => //= xy; case: (np_add _ _) => //= s.
by case: (np_sub _ _).
Qed.

(** X9: in exact arithmetic, on well-formed CPU batches with the same
    number of feature columns, [euclidean_np], and [euclidean] with it,
    returns the well-formed N-by-N2 matrix of the squared Euclidean
    distances, all non-negative. *)
Theorem euclidean_np_postcondition x y :
  wf2 x -> wf2 y -> cols x = cols y ->
  exists D,
    [/\ euclidean_np x y = Ok D,
        euclidean cp (CpuArray x) (CpuArray y) = Ok (CpuArray D),
        wf2 D, rows D = rows x /\ cols D = rows y &
        forall i j, (i < rows x)%N -> (j < rows y)%N ->
          get2 D i j = sq_dist (row x i) (row y j) /\ 0 <= get2 D i j].
Proof.
move=> wx wy eq_c; eexists; split.
- exact: euclidean_np_dist.
- by rewrite euclidean_cpu euclidean_np_dist.
- exact: wf_build2.
- by [].
move=> i j lt_i lt_j; rewrite get2_build2 // idx_dist_ge0.
by rewrite idx_dist_rows.
Qed.

(** X10: when the feature-column counts differ [euclidean_np] fails with
    [ValueError], also when one count is 1, and so does [euclidean] on two
    CPU arrays. *)
Theorem euclidean_np_shape_error x y :
  cols x <> cols y ->
  euclidean_np x y = Err ValueError /\
  euclidean cp (CpuArray x) (CpuArray y) = Err ValueError.
Proof.
by move=> ne_c; rewrite euclidean_cpu euclidean_np_err.
Qed.

(** ** Translations and scalings of the batches *)

Lemma np_add_row x t :
  rows t = 1%N -> cols t = cols x ->
  np_add x t =
  Ok (build2 (rows x) (cols x) (fun i j => get2 x i j + get2 t 0 j)).
Proof.
move=> rt ct; rewrite /np_add /broadcast2 rt ct bdimn1 bdimnn /=; congr Ok.
apply: eq_build2 => i j lt_i lt_j.
by rewrite ?(bidx_id lt_i) ?(bidx_id lt_j) ?bidx1.
Qed.

(** X12: in exact arithmetic, adding the same row vector to every row of
    both batches changes neither routine's result. *)
Theorem translation_invariant x y t x' y' :
  rows t = 1%N -> cols t = cols x -> cols x = cols y ->
  np_add x t = Ok x' -> np_add y t = Ok y' ->
  euclidean_broadcast x' y' = euclidean_broadcast x y /\
  euclidean_trick x' y' = euclidean_trick x y.
Proof.
move=> rt ct eq_c; rewrite np_add_row // np_add_row -?eq_c // => -[<-] [<-].
rewrite !euclidean_broadcast_dist ?euclidean_trick_dist //.
split; congr Ok; apply: eq_build2 => i j lt_i lt_j;
  apply: eq_sumr_mkseq => k lt_k /=;
  rewrite -eq_c !bidx_id // !get2_build2 -?eq_c //;
  by rewrite [get2 y j k + _]addrC addrKA.
Qed.

(** X13: in exact arithmetic, multiplying both batches by a scalar [c]
    multiplies every entry of the distance matrix by [c ^+ 2]. *)
Theorem scaling x y (c : R) i j :
  cols x = cols y -> (i < rows x)%N -> (j < rows y)%N ->
  exists D D',
    [/\ euclidean_trick x y = Ok D, euclidean_broadcast x y = Ok D,
        euclidean_trick (np_scale c x) (np_scale c y) = Ok D',
        euclidean_broadcast (np_scale c x) (np_scale c y) = Ok D' &
        get2 D' i j = c ^+ 2 * get2 D i j].
Proof.
move=> eq_c lt_i lt_j; do 2!eexists; split.
- exact: euclidean_trick_dist.
- exact: euclidean_broadcast_dist.
- exact: euclidean_trick_dist.
- exact: euclidean_broadcast_dist.
rewrite !get2_build2 //= /idx_dist !sumr_mkseq mulr_sumr /=.
rewrite !big_nat; apply: eq_bigr => k /andP[_ lt_k].
rewrite -eq_c !bidx_id // !get2_build2 -?eq_c //.
by rewrite -mulrBr mulrACA expr2.
Qed.

(** ** The absolute value of [euclidean_trick] *)

Lemma combine_pre n m (f g : nat -> R) (h : nat -> nat -> R) :
  (np_add (col_newaxis (build1 n f)) (row_newaxis (build1 m g)) >>= fun s =>
   np_sub s (np_scale 2 (build2 n m h))) =
  Ok (build2 n m (fun i j => f i + g j - 2 * h i j)).
Proof.
rewrite /np_add /np_sub /broadcast2 /= bdimn1 bdim1n /= !bdimnn /=.
congr Ok; apply: eq_build2 => i j lt_i lt_j.
do ![rewrite get2_build2 ?(bidx_id lt_i) ?(bidx_id lt_j) ?bidx1 //].
by rewrite !get1_build1.
Qed.

(** X14: in exact arithmetic the matrix [x2 + y2 - 2. * xy] has no negative
    entry, so the final [np.abs] of [euclidean_trick] returns it
    unchanged. *)
Theorem abs_guard_is_identity x y ex ey xy s d :
  einsum_ij_ij_i x x = Ok ex -> einsum_ij_ij_i y y = Ok ey ->
  np_dot x (transpose y) = Ok xy ->
  np_add (col_newaxis ex) (row_newaxis ey) = Ok s ->
  np_sub s (np_scale 2 xy) = Ok d ->
  np_abs d = d /\ euclidean_trick x y = Ok d.
Proof.
rewrite !einsum_self => -[<-] [<-].
have [eq_c|ne_c] := cols x =P cols y; last by rewrite np_dot_transpose_err.
rewrite np_dot_transpose // => -[<-] Hs Hd.
have := combine_pre (rows x) (rows y) (fun i => idx_dot x x i i)
          (fun j => idx_dot y y j j) (idx_dot x y).
rewrite Hs /= Hd => -[->] {Hs Hd}.
have -> : build2 (rows x) (rows y) (fun i j =>
            idx_dot x x i i + idx_dot y y j j - 2 * idx_dot x y i j) =
          build2 (rows x) (rows y) (idx_dist (cols x) x y).
  by apply: eq_build2 => i j _ _; rewrite idx_dist_expand.
rewrite euclidean_trick_dist //; split=> //.
rewrite /np_abs /=; apply: eq_build2 => i j lt_i lt_j.
by rewrite get2_build2 // ger0_norm ?idx_dist_ge0.
Qed.

End More.

(** * Further instances on the integers *)

Lemma zero_distance_witness :
  [/\ wf2 batch_a, wf2 batch_a, cols batch_a = cols batch_a,
      (1 < rows batch_a)%N & (1 < rows batch_a)%N] /\
  exists D,
    [/\ euclidean_trick batch_a batch_a = Ok D,
        euclidean_broadcast batch_a batch_a = Ok D &
        get2 D 1 1 = 0 <-> row batch_a 1 = row batch_a 1].
Proof.
split; first by split; reflexivity.
apply: (@zero_distance _ batch_a batch_a 1 1); reflexivity.
Defined.

Lemma empty_batches_witness :
  cols batch_0 = cols batch_b /\
  euclidean_trick batch_0 batch_b = Ok (Array2 0 (rows batch_b) [::]).
Proof.
have eq_c : cols batch_0 = cols batch_b by reflexivity.
split; first exact: eq_c.
by case: (@empty_batches _ batch_0 batch_b eq_c) => H _ _; case: H.
Defined.

Lemma gram_matrix_witness :
  [/\ (0 < rows batch_a)%N, (1 < rows batch_a)%N &
      exists G,
        [/\ gram_cell batch_a = Ok G, rows G = rows batch_a,
            cols G = rows batch_a, get2 G 0 1 = get2 G 1 0 &
            0 <= get2 G 0 0]].
Proof.
split; [reflexivity | reflexivity | ].
apply: (@gram_matrix _ batch_a 0 1); reflexivity.
Defined.


Lemma euclidean_np_postcondition_witness :
  [/\ wf2 batch_a, wf2 batch_b & cols batch_a = cols batch_b] /\
  exists D,
    [/\ euclidean_np batch_a batch_b = Ok D,
        euclidean (np int) (CpuArray batch_a) (CpuArray batch_b) =
          Ok (CpuArray D),
        wf2 D, rows D = rows batch_a /\ cols D = rows batch_b &
        forall i j, (i < rows batch_a)%N -> (j < rows batch_b)%N ->
          get2 D i j = sq_dist (row batch_a i) (row batch_b j) /\
          0 <= get2 D i j].
Proof.
split; first by split; reflexivity.
apply: (@euclidean_np_postcondition _ (np int) batch_a batch_b); reflexivity.
Defined.

Lemma euclidean_np_shape_error_witness :
  cols batch_c <> cols batch_b /\
  euclidean_np batch_c batch_b = Err ValueError /\
  euclidean (np int) (CpuArray batch_c) (CpuArray batch_b) = Err ValueError.
Proof.
have ne : cols batch_c <> cols batch_b by [].
split; first exact: ne.
exact: (@euclidean_np_shape_error _ (np int) batch_c batch_b ne).
Defined.

Lemma translation_invariant_witness :
  [/\ rows batch_b = 1%N, cols batch_b = cols batch_a,
      cols batch_a = cols batch_b,
      np_add batch_a batch_b = Ok (Array2 2 2 [:: [:: 1; 2]; [:: 4; 6]]) &
      np_add batch_b batch_b = Ok (Array2 1 2 [:: [:: 2; 4]])] /\
  euclidean_broadcast (Array2 2 2 [:: [:: 1; 2]; [:: 4; 6]])
    (Array2 1 2 [:: [:: 2; 4]]) = euclidean_broadcast batch_a batch_b /\
  euclidean_trick (Array2 2 2 [:: [:: 1; 2]; [:: 4; 6]])
    (Array2 1 2 [:: [:: 2; 4]]) = euclidean_trick batch_a batch_b.
Proof.
have Hx : np_add batch_a batch_b = Ok (Array2 2 2 [:: [:: 1; 2]; [:: 4; 6]]).
  reflexivity.
have Hy : np_add batch_b batch_b = Ok (Array2 1 2 [:: [:: 2; 4]]).
  reflexivity.
split; first by split; [reflexivity | reflexivity | reflexivity | | ].
exact: (@translation_invariant _ batch_a batch_b batch_b _ _
          (erefl _) (erefl _) (erefl _) Hx Hy).
Defined.

Lemma scaling_witness :
  [/\ cols batch_a = cols batch_b, (1 < rows batch_a)%N &
      (0 < rows batch_b)%N] /\
  exists D D',
    [/\ euclidean_trick batch_a batch_b = Ok D,
        euclidean_broadcast batch_a batch_b = Ok D,
        euclidean_trick (np_scale 3 batch_a) (np_scale 3 batch_b) = Ok D',
        euclidean_broadcast (np_scale 3 batch_a) (np_scale 3 batch_b) = Ok D' &
        get2 D' 1 0 = 3 ^+ 2 * get2 D 1 0].
Proof.
split; first by split; reflexivity.
apply: (@scaling _ batch_a batch_b 3 1 0); reflexivity.
Defined.

Lemma abs_guard_is_identity_witness :
  let ex : array1 int := Array1 1 [:: 1] in
  let ey : array1 int := Array1 1 [:: 1] in
  let xy : array2 int := Array2 1 1 [:: [:: 1]] in
  let s : array2 int := Array2 1 1 [:: [:: 2]] in
  let d : array2 int := Array2 1 1 [:: [:: 0]] in
  [/\ einsum_ij_ij_i batch_c batch_c = Ok ex,
      einsum_ij_ij_i batch_c batch_c = Ok ey,
      np_dot batch_c (transpose batch_c) = Ok xy,
      np_add (col_newaxis ex) (row_newaxis ey) = Ok s &
      np_sub s (np_scale 2 xy) = Ok d] /\
  np_abs d = d /\ euclidean_trick batch_c batch_c = Ok d.
Proof.
move=> ex ey xy s d.
have H1 : einsum_ij_ij_i batch_c batch_c = Ok ex by reflexivity.
have H3 : np_dot batch_c (transpose batch_c) = Ok xy by reflexivity.
have H4 : np_add (col_newaxis ex) (row_newaxis ey) = Ok s by reflexivity.
have H5 : np_sub s (np_scale 2 xy) = Ok d by reflexivity.
split; first by split.
exact: (abs_guard_is_identity H1 H1 H3 H4 H5).
Defined.

(** * The routine on binary64 numbers *)

Section Binary64.

Variables esum dsum : seq float -> float.

Implicit Types (x y : F64.array2).

Lemma f64_get1_build1 n (f : nat -> float) i :
  (i < n)%N -> F64.get1 (F64.build1 n f) i = f i.
Proof. by move=> lt_in; rewrite /F64.get1 /= nth_mkseq. Qed.

Lemma f64_get2_build2 n m (f : nat -> nat -> float) i j :
  (i < n)%N -> (j < m)%N -> F64.get2 (F64.build2 n m f) i j = f i j.
Proof.
by move=> lt_in lt_jm; rewrite /F64.get2 /F64.row /= nth_mkseq // nth_mkseq.
Qed.

Lemma f64_eq_build1 n (f g : nat -> float) :
  (forall i, (i < n)%N -> f i = g i) -> F64.build1 n f = F64.build1 n g.
Proof. by move=> fg; rewrite /F64.build1 (eq_in_mkseq fg). Qed.

Lemma f64_eq_build2 n m (f g : nat -> nat -> float) :
  (forall i j, (i < n)%N -> (j < m)%N -> f i j = g i j) ->
  F64.build2 n m f = F64.build2 n m g.
Proof.
move=> fg; rewrite /F64.build2; congr F64.Array2.
by apply: eq_in_mkseq => i lt_in; apply: eq_in_mkseq => j; apply: fg.
Qed.

Lemma f64_einsum_self x :
  F64.einsum_ij_ij_i esum x x =
  Ok (F64.build1 (F64.rows x) (F64.row_norm esum x)).
Proof.
rewrite /F64.einsum_ij_ij_i !bdimnn /=; congr Ok.
apply: f64_eq_build1 => i lt_i; rewrite /F64.row_norm; congr esum.
by apply: eq_in_mkseq => k lt_k; rewrite !bidx_id.
Qed.

Lemma f64_np_dot_transpose x y :
  F64.cols x = F64.cols y ->
  F64.np_dot dsum x (F64.transpose y) =
  Ok (F64.build2 (F64.rows x) (F64.rows y) (F64.row_dot dsum x y)).
Proof.
move=> eq_c; rewrite /F64.np_dot /= eq_c eqxx; congr Ok.
apply: f64_eq_build2 => i j lt_i lt_j; rewrite /F64.row_dot eq_c; congr dsum.
by apply: eq_in_mkseq => k lt_k; rewrite f64_get2_build2.
Qed.

Lemma f64_combine_ok n m (f g : nat -> float) (h : nat -> nat -> float) :
  F64.np_add (F64.col_newaxis (F64.build1 n f))
             (F64.row_newaxis (F64.build1 m g)) >>= (fun s =>
  F64.np_sub s (F64.np_scale 2%float (F64.build2 n m h)) >>= fun d =>
  Ok (F64.np_abs d)) =
  Ok (F64.build2 n m (fun i j =>
        PrimFloat.abs (PrimFloat.sub (PrimFloat.add (f i) (g j))
                                     (PrimFloat.mul 2%float (h i j))))).
Proof.
rewrite /F64.np_add /F64.np_sub /F64.broadcast2 /= bdimn1 bdim1n /=.
rewrite !bdimnn /= /F64.np_abs /=.
congr Ok; apply: f64_eq_build2 => i j lt_i lt_j.
do ![rewrite f64_get2_build2 ?(bidx_id lt_i) ?(bidx_id lt_j) ?bidx1 //].
by rewrite !f64_get1_build1.
Qed.

Lemma f64_euclidean_trick_ok x y :
  F64.cols x = F64.cols y ->
  F64.euclidean_trick esum dsum x y =
  Ok (F64.build2 (F64.rows x) (F64.rows y) (fun i j =>
        PrimFloat.abs
          (PrimFloat.sub
             (PrimFloat.add (F64.row_norm esum x i) (F64.row_norm esum y j))
             (PrimFloat.mul 2%float (F64.row_dot dsum x y i j))))).
Proof.
move=> eq_c; rewrite /F64.euclidean_trick !f64_einsum_self /=.
rewrite f64_np_dot_transpose //=.
exact: f64_combine_ok.
Qed.


End Binary64.

(** C1, as the code has it: on batches with the same number of feature
    columns [euclidean_trick] returns an N-by-N2 matrix whose entry (i, j)
    is the absolute value |x2_i + y2_j - 2 * xy_ij| computed in the
    binary64 arithmetic of the arrays, [x2], [y2] and [xy] being what
    [np.einsum] and [np.dot] returned, whatever their order of summation;
    in exact arithmetic, on well-formed batches, this entry is
    |‖x_i‖² + ‖y_j‖² − 2·(x_i·y_j)| and equals the squared Euclidean
    distance between row i of [x] and row j of [y]. *)
Theorem euclidean_trick_postcondition :
  (forall (esum dsum : seq float -> float) (x y : F64.array2),
     F64.cols x = F64.cols y ->
     exists D,
       [/\ F64.euclidean_trick esum dsum x y = Ok D,
           F64.rows D = F64.rows x, F64.cols D = F64.rows y &
           forall i j, (i < F64.rows x)%N -> (j < F64.rows y)%N ->
             F64.get2 D i j =
             PrimFloat.abs
               (PrimFloat.sub
                  (PrimFloat.add (F64.row_norm esum x i)
                                 (F64.row_norm esum y j))
                  (PrimFloat.mul 2%float (F64.row_dot dsum x y i j)))]) /\
  (forall (R : realDomainType) (x y : array2 R),
     wf2 x -> wf2 y -> cols x = cols y ->
     exists D,
       [/\ euclidean_trick x y = Ok D, wf2 D, rows D = rows x,
           cols D = rows y &
           forall i j, (i < rows x)%N -> (j < rows y)%N ->
             get2 D i j =
               `|sq_norm (row x i) + sq_norm (row y j)
                 - 2 * dotp (row x i) (row y j)| /\
             get2 D i j = sq_dist (row x i) (row y j)]).
Proof.
split=> [esum dsum x y eq_c|R x y]; last exact: euclidean_trick_exact.
eexists; split; [exact: f64_euclidean_trick_ok | by [] | by [] | ].
by move=> i j lt_i lt_j; rewrite f64_get2_build2.
Qed.


(** * Instances on binary64 numbers *)

Lemma f64_zero_ne_one : 0%float <> 1%float.
Proof. by move/(congr1 (fun z => PrimFloat.eqb z 0%float)). Qed.


(** C1 as stated fails under rounding: the rows 2^27 + 1 and 2^27 are at
    squared distance 1, and [euclidean_trick] returns 0. *)
Lemma euclidean_trick_postcondition_counterexample :
  [/\ F64.cols F64.batch_p = F64.cols F64.batch_q,
      F64.euclidean_trick F64.sum_lr F64.sum_lr F64.batch_p F64.batch_q =
        Ok (F64.Array2 1 1 [:: [:: 0%float]]),
      F64.sq_dist (F64.row F64.batch_p 0) (F64.row F64.batch_q 0) = 1%float &
      F64.get2 (F64.Array2 1 1 [:: [:: 0%float]]) 0 0 <>
      F64.sq_dist (F64.row F64.batch_p 0) (F64.row F64.batch_q 0)].
Proof.
split; [reflexivity | by vm_compute | by vm_compute | ].
have -> : F64.sq_dist (F64.row F64.batch_p 0) (F64.row F64.batch_q 0) =
          1%float by vm_compute.
exact: f64_zero_ne_one.
Defined.



Lemma euclidean_trick_postcondition_witness :
  (F64.cols F64.batch_p = F64.cols F64.batch_q /\
   exists D,
     [/\ F64.euclidean_trick F64.sum_lr F64.sum_lr F64.batch_p F64.batch_q =
           Ok D,
         F64.rows D = F64.rows F64.batch_p,
         F64.cols D = F64.rows F64.batch_q &
         forall i j, (i < F64.rows F64.batch_p)%N ->
                     (j < F64.rows F64.batch_q)%N ->
           F64.get2 D i j =
           PrimFloat.abs
             (PrimFloat.sub
                (PrimFloat.add (F64.row_norm F64.sum_lr F64.batch_p i)
                               (F64.row_norm F64.sum_lr F64.batch_q j))
                (PrimFloat.mul 2%float
                   (F64.row_dot F64.sum_lr F64.batch_p F64.batch_q i j)))]) /\
  ([/\ wf2 batch_a, wf2 batch_a & cols batch_a = cols batch_a] /\
   exists D,
     [/\ euclidean_trick batch_a batch_a = Ok D, wf2 D,
         rows D = rows batch_a, cols D = rows batch_a &
         forall i j, (i < rows batch_a)%N -> (j < rows batch_a)%N ->
           get2 D i j =
             `|sq_norm (row batch_a i) + sq_norm (row batch_a j)
               - 2 * dotp (row batch_a i) (row batch_a j)| /\
           get2 D i j = sq_dist (row batch_a i) (row batch_a j)]).
Proof.
case: euclidean_trick_postcondition => Hf He; split.
  by split; [reflexivity | apply: Hf; reflexivity].
split; first by split; reflexivity.
by apply: (He _ batch_a batch_a); reflexivity.
Defined.

